(** * The status composable of the frontend: [useStatusUpdater]

    A shallow embedding of
    [frontend/app/src/composables/status.ts].  The composable closes over
    a default section and the three functions of the status store
    ([setStatus], [getStatus], [isLoading]); every operation of the
    returned handle resolves an optional options record to a
    (section, subsection) pair and performs one or two calls on the
    store.

    The operations are embedded as call trees over the store's interface
    ([Prog]), so that both the arguments handed to the store and the
    value computed from its answers can be stated.  A call tree is run
    against any implementation of the interface ([StatusStore]). *)

From stdpp Require Import gmap strings.

(** ** Types of [@/types/status]

    [Status] is an enumeration of which the composable only uses the
    member [NONE] and the strict equality [===]; [Section] is an
    identifier type.  Both are parameters of the development ([Sec]
    stands for the source's [Section] type). *)

Class StatusEnum (Status : Type) := {
  NONE : Status;
  Status_eq_dec :: EqDecision Status
}.

Section Composable.
Context {Sec Status : Type} `{!StatusEnum Status}.

(** [interface Opts { section?: Section; subsection?: string }]:
    an omitted (undefined) member is [None]. *)
Record Opts : Type := mkOpts {
  section : option Sec;
  subsection : option string
}.

(** The default value [{}] of the parameter [opts]. *)
Definition emptyOpts : Opts := {| section := None; subsection := None |}.

(** The object literal [{ section, subsection, status }] handed to the
    store's [setStatus]. *)
Record StatusPayload : Type := mkPayload {
  p_section : Sec;
  p_subsection : option string;
  p_status : Status
}.

(** The key of the store a call is about. *)
Definition StatusKey : Type := Sec * option string.

(** *** Call trees over the store

    [SetStatusCall p k] is the statement [setStatus(p)] followed by [k];
    [GetStatusCall s ss k] is [get(getStatus(s, ss))] whose value is
    passed to [k]; [IsLoadingCall s ss k] is [get(isLoading(s, ss))]. *)
Inductive Prog (A : Type) : Type :=
| Ret (a : A)
| SetStatusCall (p : StatusPayload) (k : Prog A)
| GetStatusCall (s : Sec) (ss : option string) (k : Status -> Prog A)
| IsLoadingCall (s : Sec) (ss : option string) (k : bool -> Prog A).

Global Arguments Ret {A} a.
Global Arguments SetStatusCall {A} p k.
Global Arguments GetStatusCall {A} s ss k.
Global Arguments IsLoadingCall {A} s ss k.

Fixpoint bind {A B : Type} (m : Prog A) (f : A -> Prog B) : Prog B :=
  match m with
  | Ret a => f a
  | SetStatusCall p k => SetStatusCall p (bind k f)
  | GetStatusCall s ss k => GetStatusCall s ss (fun x => bind (k x) f)
  | IsLoadingCall s ss k => IsLoadingCall s ss (fun x => bind (k x) f)
  end.

Global Instance Prog_ret : MRet Prog := @Ret.
Global Instance Prog_bind : MBind Prog := fun A B f m => bind m f.

(** The three functions taken from [useStatusStore()], each read through
    [get] where the source does so. *)
Definition setStatus (p : StatusPayload) : Prog unit :=
  SetStatusCall p (Ret tt).
Definition getStatus (s : Sec) (ss : option string) : Prog Status :=
  GetStatusCall s ss Ret.
Definition isLoading (s : Sec) (ss : option string) : Prog bool :=
  IsLoadingCall s ss Ret.

(** *** The operations of [useStatusUpdater(defaultSection)]

    Each one starts with the parameter default [opts = {}] and the
    destructuring [{ section = defaultSection, subsection } = opts]. *)
Section Operations.
Variable defaultSection : Sec.

Definition updateStatus (status : Status) (opts : option Opts) : Prog unit :=
  let opts := default emptyOpts opts in
  let section_ := default defaultSection (section opts) in
  let subsection_ := subsection opts in
  setStatus {| p_section := section_;
               p_subsection := subsection_;
               p_status := status |}.

Definition resetStatus (opts : option Opts) : Prog unit :=
  let opts := default emptyOpts opts in
  let section_ := default defaultSection (section opts) in
  let subsection_ := subsection opts in
  setStatus {| p_section := section_;
               p_subsection := subsection_;
               p_status := NONE |}.

Definition loading (opts : option Opts) : Prog bool :=
  let opts := default emptyOpts opts in
  let section_ := default defaultSection (section opts) in
  let subsection_ := subsection opts in
  isLoading section_ subsection_.

Definition isFirstLoad (opts : option Opts) : Prog bool :=
  let opts := default emptyOpts opts in
  let section_ := default defaultSection (section opts) in
  let subsection_ := subsection opts in
  st ← getStatus section_ subsection_;
  mret (bool_decide (st = NONE)).

(** [!(isFirstLoad(opts) || refresh) || loading(opts)]: the right operand
    of the outer [||] is only evaluated when the left one is false.  The
    inner calls receive the already defaulted [opts]. *)
Definition fetchDisabled (refresh : bool) (opts : option Opts) : Prog bool :=
  let opts := default emptyOpts opts in
  first ← isFirstLoad (Some opts);
  if negb (first || refresh) then mret true else loading (Some opts).

Definition getSectionStatus (opts : option Opts) : Prog Status :=
  let opts := default emptyOpts opts in
  let section_ := default defaultSection (section opts) in
  let subsection_ := subsection opts in
  getStatus section_ subsection_.

End Operations.

(** The object returned by [useStatusUpdater]. *)
Record StatusUpdater : Type := mkStatusUpdater {
  h_loading : option Opts -> Prog bool;
  h_isFirstLoad : option Opts -> Prog bool;
  h_setStatus : Status -> option Opts -> Prog unit;
  h_getStatus : option Opts -> Prog Status;
  h_fetchDisabled : bool -> option Opts -> Prog bool;
  h_resetStatus : option Opts -> Prog unit
}.

Definition useStatusUpdater (defaultSection : Sec) : StatusUpdater :=
  {| h_loading := loading defaultSection;
     h_isFirstLoad := isFirstLoad defaultSection;
     h_setStatus := updateStatus defaultSection;
     h_getStatus := getSectionStatus defaultSection;
     h_fetchDisabled := fetchDisabled defaultSection;
     h_resetStatus := resetStatus defaultSection |}.

(** *** Running a call tree against a store *)

(** Modelled from the spec: the interface of the status store, whose
    declaration is not part of the sources at hand, as the composable
    consumes it: [setStatus(entry)] is a write, [getStatus(section,
    subsection)] and [isLoading(section, subsection)] return reactive
    values whose current value is read with [get].  An implementation
    of the store is a parameter. *)
Class StatusStore (St : Type) := {
  store_setStatus : StatusPayload -> St -> St;
  store_getStatus : Sec -> option string -> St -> Status;
  store_isLoading : Sec -> option string -> St -> bool
}.

Fixpoint run {St : Type} `{!StatusStore St} {A : Type}
    (p : Prog A) (σ : St) : A * St :=
  match p with
  | Ret a => (a, σ)
  | SetStatusCall pl k => run k (store_setStatus pl σ)
  | GetStatusCall s ss k => run (k (store_getStatus s ss σ)) σ
  | IsLoadingCall s ss k => run (k (store_isLoading s ss σ)) σ
  end.

(** The value an operation returns, and the store it leaves. *)
Definition result {St : Type} `{!StatusStore St} {A : Type}
    (p : Prog A) (σ : St) : A := (run p σ).1.
Definition after {St : Type} `{!StatusStore St} {A : Type}
    (p : Prog A) (σ : St) : St := (run p σ).2.

(** *** Properties of call trees *)

(** Every call of the tree, whatever the store answers, is about key
    [k]. *)
Inductive CallsOnlyAt (k : StatusKey) {A : Type} : Prog A -> Prop :=
| coa_ret a : CallsOnlyAt k (Ret a)
| coa_set p c :
    (p_section p, p_subsection p) = k ->
    CallsOnlyAt k c -> CallsOnlyAt k (SetStatusCall p c)
| coa_get s ss c :
    (s, ss) = k ->
    (forall st, CallsOnlyAt k (c st)) -> CallsOnlyAt k (GetStatusCall s ss c)
| coa_loading s ss c :
    (s, ss) = k ->
    (forall b, CallsOnlyAt k (c b)) -> CallsOnlyAt k (IsLoadingCall s ss c).

(** The tree performs at least one call on the store. *)
Definition callsStore {A : Type} (p : Prog A) : bool :=
  match p with
  | Ret _ => false
  | _ => true
  end.

(** The tree calls the store, and only about key [k]. *)
Definition Targets (k : StatusKey) {A : Type} (p : Prog A) : Prop :=
  callsStore p = true /\ CallsOnlyAt k p.

(** The tree never calls the store's [setStatus]. *)
Inductive ReadOnly {A : Type} : Prog A -> Prop :=
| ro_ret a : ReadOnly (Ret a)
| ro_get s ss c :
    (forall st, ReadOnly (c st)) -> ReadOnly (GetStatusCall s ss c)
| ro_loading s ss c :
    (forall b, ReadOnly (c b)) -> ReadOnly (IsLoadingCall s ss c).

(** The option resolution rule in the words of the specification:
    the section is the explicit value if provided, else the default
    section; the subsection is the explicit value if provided, else
    absent.  An omitted record provides nothing. *)
Definition resolveOptions (defaultSection : Sec) (opts : option Opts)
    : StatusKey :=
  match opts with
  | None => (defaultSection, None)
  | Some o =>
      (match section o with
       | Some s => s
       | None => defaultSection
       end,
       match subsection o with
       | Some ss => Some ss
       | None => None
       end)
  end.

End Composable.

Global Arguments Opts : clear implicits.
Global Arguments StatusPayload : clear implicits.
Global Arguments StatusKey : clear implicits.
Global Arguments Prog : clear implicits.
Global Arguments StatusUpdater : clear implicits.
Global Arguments StatusStore : clear implicits.

(** ** The calls an operation performs *)

Section CallTraces.
Context {Sec Status : Type}.

(** One call on the store, with its arguments. *)
Inductive StoreCall : Type :=
| CalledSetStatus (p : StatusPayload Sec Status)
| CalledGetStatus (s : Sec) (ss : option string)
| CalledIsLoading (s : Sec) (ss : option string).

(** The calls a tree performs, in order, when it is run in store [σ]. *)
Fixpoint calls {St : Type} `{!StatusStore Sec Status St} {A : Type}
    (p : Prog Sec Status A) (σ : St) : list StoreCall :=
  match p with
  | Ret _ => []
  | SetStatusCall pl k => CalledSetStatus pl :: calls k (store_setStatus pl σ)
  | GetStatusCall s ss k =>
      CalledGetStatus s ss :: calls (k (store_getStatus s ss σ)) σ
  | IsLoadingCall s ss k =>
      CalledIsLoading s ss :: calls (k (store_isLoading s ss σ)) σ
  end.

(** Two stores, possibly of different implementations, answer the two
    reads alike at key [k]. *)
Definition AgreeAt (k : StatusKey Sec) {St1 St2 : Type}
    `{!StatusStore Sec Status St1} `{!StatusStore Sec Status St2}
    (σ1 : St1) (σ2 : St2) : Prop :=
  store_getStatus k.1 k.2 σ1 = store_getStatus k.1 k.2 σ2
  /\ store_isLoading k.1 k.2 σ1 = store_isLoading k.1 k.2 σ2.

(** A store in which the status read at a key that was just written is
    the status written. *)
Definition ReadsBackWrites (St : Type) `{!StatusStore Sec Status St} : Prop :=
  forall (p : StatusPayload Sec Status) (σ : St),
    store_getStatus (p_section p) (p_subsection p) (store_setStatus p σ)
    = p_status p.

End CallTraces.

Global Arguments StoreCall : clear implicits.

(** ** The status store *)

Section Registry.
Context {Sec Status : Type} `{!StatusEnum Status} `{Countable Sec}.

(** Modelled from the spec: the status store returned by
    [useStatusStore()], whose source file is not part of the sources at
    hand.  The specification describes it as a registry mapping
    (Section, Subsection-or-absent) to Status with read and write access
    and a derived "is loading" predicate; a key that was never written
    reads as [NONE].  How the predicate is derived from the registry is
    not fixed by the specification and is the parameter
    [derivedLoading]. *)
Definition registryStore
    (derivedLoading : gmap (StatusKey Sec) Status -> Sec -> option string -> bool)
    : StatusStore Sec Status (gmap (StatusKey Sec) Status) :=
  {| store_setStatus p m := <[(p_section p, p_subsection p) := p_status p]> m;
     store_getStatus s ss m := default NONE (m !! (s, ss));
     store_isLoading s ss m := derivedLoading m s ss |}.

End Registry.

(** ** The example scenario of the specification *)

Module Scenario.

(** Modelled from the spec: the members of [Status] that the example
    scenario needs ([Status.NONE], a loading state and
    [Status.SUCCESS]); the enumeration itself is declared in
    [@/types/status]. *)
Inductive ScenarioStatus : Type := St_NONE | St_LOADING | St_SUCCESS.

#[export] Instance ScenarioStatus_eq_dec : EqDecision ScenarioStatus.
Proof. solve_decision. Defined.

#[export] Instance ScenarioStatus_enum : StatusEnum ScenarioStatus :=
  {| NONE := St_NONE |}.

(** In the scenario a key is loading when its status is the loading
    state. *)
Definition scenarioLoading (m : gmap (StatusKey string) ScenarioStatus)
    (s : string) (ss : option string) : bool :=
  bool_decide (default St_NONE (m !! (s, ss)) = St_LOADING).

Definition scenarioStore
    : StatusStore string ScenarioStatus (gmap (StatusKey string) ScenarioStatus) :=
  registryStore scenarioLoading.

(** The handle for default section ["balances"]. *)
Definition balances : StatusUpdater string ScenarioStatus :=
  useStatusUpdater "balances"%string.

Definition historyOpts : Opts string :=
  {| section := Some "history"%string; subsection := Some "trades"%string |}.

End Scenario.

(** * Properties *)

(** ** Running call trees *)

Section RunLemmas.
Context {Sec Status : Type} `{!StatusEnum Status}.
Context {St : Type} `{!StatusStore Sec Status St}.

Lemma run_bind {A B : Type} (m : Prog Sec Status A)
    (f : A -> Prog Sec Status B) (σ : St) :
  run (m ≫= f) σ = run (f (result m σ)) (after m σ).
Proof.
  unfold mbind, Prog_bind, result, after.
  revert σ; induction m as [a | p k IH | s ss k IH | s ss k IH];
    intros σ; simpl; auto.
Qed.

Lemma ReadOnly_after {A : Type} (p : Prog Sec Status A) (σ : St) :
  ReadOnly p -> after p σ = σ.
Proof.
  unfold after. induction 1; simpl; auto.
Qed.

Lemma ReadOnly_bind {A B : Type} (m : Prog Sec Status A)
    (f : A -> Prog Sec Status B) :
  ReadOnly m -> (forall a, ReadOnly (f a)) -> ReadOnly (m ≫= f).
Proof.
  unfold mbind, Prog_bind.
  induction 1; intros Hf; simpl; auto; constructor; auto.
Qed.

Lemma CallsOnlyAt_bind (k : StatusKey Sec) {A B : Type}
    (m : Prog Sec Status A) (f : A -> Prog Sec Status B) :
  CallsOnlyAt k m -> (forall a, CallsOnlyAt k (f a)) -> CallsOnlyAt k (m ≫= f).
Proof.
  unfold mbind, Prog_bind.
  induction 1; intros Hf; simpl; auto; constructor; auto.
Qed.

End RunLemmas.

(** ** The operations, one by one *)

Section OperationLemmas.
Context {Sec Status : Type} `{!StatusEnum Status}.
Variable defaultSection : Sec.

(** The destructuring done by every operation computes the key of the
    resolution rule. *)
Lemma destructuring_resolves (opts : option (Opts Sec)) :
  (default defaultSection (section (default emptyOpts opts)),
   subsection (default emptyOpts opts)) = resolveOptions defaultSection opts.
Proof.
  destruct opts as [[[s|] [ss|]]|]; reflexivity.
Qed.

Lemma loading_ReadOnly opts : ReadOnly (@loading Sec Status defaultSection opts).
Proof. repeat constructor. Qed.

Lemma getSectionStatus_ReadOnly opts : ReadOnly (@getSectionStatus Sec Status defaultSection opts).
Proof. repeat constructor. Qed.

Lemma isFirstLoad_ReadOnly opts : ReadOnly (isFirstLoad defaultSection opts).
Proof. repeat constructor. Qed.

Lemma fetchDisabled_ReadOnly refresh opts :
  ReadOnly (fetchDisabled defaultSection refresh opts).
Proof.
  unfold fetchDisabled. apply ReadOnly_bind.
  - apply isFirstLoad_ReadOnly.
  - intros first. destruct (negb (first || refresh)).
    + constructor.
    + apply loading_ReadOnly.
Qed.

Section AgainstAStore.
Context {St : Type} `{!StatusStore Sec Status St}.

Lemma run_loading opts (σ : St) :
  run (loading defaultSection opts) σ =
  (store_isLoading (resolveOptions defaultSection opts).1
                   (resolveOptions defaultSection opts).2 σ, σ).
Proof. rewrite <- destructuring_resolves. reflexivity. Qed.

Lemma run_getSectionStatus opts (σ : St) :
  run (getSectionStatus defaultSection opts) σ =
  (store_getStatus (resolveOptions defaultSection opts).1
                   (resolveOptions defaultSection opts).2 σ, σ).
Proof. rewrite <- destructuring_resolves. reflexivity. Qed.

Lemma run_isFirstLoad opts (σ : St) :
  run (isFirstLoad defaultSection opts) σ =
  (bool_decide
     (store_getStatus (resolveOptions defaultSection opts).1
                      (resolveOptions defaultSection opts).2 σ = NONE), σ).
Proof. rewrite <- destructuring_resolves. reflexivity. Qed.

Lemma run_updateStatus status opts (σ : St) :
  run (updateStatus defaultSection status opts) σ =
  (tt, store_setStatus
         {| p_section := (resolveOptions defaultSection opts).1;
            p_subsection := (resolveOptions defaultSection opts).2;
            p_status := status |} σ).
Proof. rewrite <- destructuring_resolves. reflexivity. Qed.

Lemma run_fetchDisabled refresh opts (σ : St) :
  run (fetchDisabled defaultSection refresh opts) σ =
  (negb (result (isFirstLoad defaultSection opts) σ || refresh)
   || result (loading defaultSection opts) σ, σ).
Proof.
  unfold fetchDisabled. rewrite run_bind.
  rewrite (ReadOnly_after _ _ (isFirstLoad_ReadOnly _)).
  assert (E1 : result (isFirstLoad defaultSection (Some (default emptyOpts opts))) σ
               = result (isFirstLoad defaultSection opts) σ)
    by (destruct opts; reflexivity).
  assert (E2 : @loading Sec Status defaultSection (Some (default emptyOpts opts))
               = loading defaultSection opts)
    by (destruct opts; reflexivity).
  rewrite E1, E2.
  destruct (negb (result (isFirstLoad defaultSection opts) σ || refresh)).
  - reflexivity.
  - unfold result. rewrite run_loading. reflexivity.
Qed.

Lemma result_fetchDisabled refresh opts (σ : St) :
  result (fetchDisabled defaultSection refresh opts) σ =
  negb (result (isFirstLoad defaultSection opts) σ || refresh)
  || result (loading defaultSection opts) σ.
Proof. unfold result at 1. rewrite run_fetchDisabled. reflexivity. Qed.

End AgainstAStore.
End OperationLemmas.

(** ** The handle against any store *)

Section Handle.
Context {Sec Status : Type} `{!StatusEnum Status}.
Context {St : Type} `{!StatusStore Sec Status St}.

(** C1: [fetchDisabled(refresh, opts)] returns
    [!(isFirstLoad(opts) || refresh) || loading(opts)], the three
    operations being evaluated in the same store; the result is false
    exactly when first load or refresh holds and the key is not
    loading. *)
Theorem fetchDisabled_formula (defaultSection : Sec) (refresh : bool)
    (opts : option (Opts Sec)) (σ : St) :
  let h := useStatusUpdater defaultSection in
  result (h_fetchDisabled h refresh opts) σ =
    negb (result (h_isFirstLoad h opts) σ || refresh)
    || result (h_loading h opts) σ
  /\ (result (h_fetchDisabled h refresh opts) σ = false <->
      (result (h_isFirstLoad h opts) σ = true \/ refresh = true)
      /\ result (h_loading h opts) σ = false).
Proof.
  cbn zeta. cbn [useStatusUpdater h_fetchDisabled h_isFirstLoad h_loading].
  rewrite result_fetchDisabled.
  split; [reflexivity|].
  rewrite orb_false_iff, negb_false_iff, orb_true_iff. reflexivity.
Qed.

(** C3: [isFirstLoad(opts)] is true if and only if the status the store
    holds at the resolved key is [Status.NONE]; it equals
    [getStatus(opts) === Status.NONE]. *)
Theorem isFirstLoad_iff_NONE (defaultSection : Sec)
    (opts : option (Opts Sec)) (σ : St) :
  let h := useStatusUpdater defaultSection in
  let k := resolveOptions defaultSection opts in
  result (h_getStatus h opts) σ = store_getStatus k.1 k.2 σ
  /\ result (h_isFirstLoad h opts) σ
     = bool_decide (result (h_getStatus h opts) σ = NONE)
  /\ (result (h_isFirstLoad h opts) σ = true <->
      store_getStatus k.1 k.2 σ = NONE).
Proof.
  cbn zeta. cbn [useStatusUpdater h_getStatus h_isFirstLoad].
  unfold result. rewrite run_getSectionStatus, run_isFirstLoad. cbn [fst].
  repeat split.
  - apply bool_decide_eq_true_1.
  - apply bool_decide_eq_true_2.
Qed.

(** C6: with [refresh = true], [fetchDisabled] equals [loading(opts)],
    whatever [isFirstLoad] is; and [loading(opts)] is the store's
    [isLoading] answer for the resolved key, so that the result is true
    exactly while the store reports that key as loading. *)
Theorem fetchDisabled_refresh (defaultSection : Sec)
    (opts : option (Opts Sec)) (σ : St) :
  let h := useStatusUpdater defaultSection in
  let k := resolveOptions defaultSection opts in
  result (h_fetchDisabled h true opts) σ = result (h_loading h opts) σ
  /\ result (h_loading h opts) σ = store_isLoading k.1 k.2 σ
  /\ result (h_fetchDisabled h true opts) σ = store_isLoading k.1 k.2 σ
  /\ (result (h_fetchDisabled h true opts) σ = true <->
      store_isLoading k.1 k.2 σ = true).
Proof.
  cbn zeta. cbn [useStatusUpdater h_fetchDisabled h_loading].
  rewrite result_fetchDisabled, orb_true_r. cbn [negb orb].
  unfold result. rewrite run_loading. cbn [fst].
  repeat split; auto.
Qed.

(** C7: with [refresh = false], [fetchDisabled] equals
    [loading(opts) || !isFirstLoad(opts)], all evaluated in the same
    store at the same key. *)
Theorem fetchDisabled_no_refresh (defaultSection : Sec)
    (opts : option (Opts Sec)) (σ : St) :
  let h := useStatusUpdater defaultSection in
  result (h_fetchDisabled h false opts) σ =
    result (h_loading h opts) σ || negb (result (h_isFirstLoad h opts) σ).
Proof.
  cbn zeta. cbn [useStatusUpdater h_fetchDisabled h_loading h_isFirstLoad].
  rewrite result_fetchDisabled, orb_false_r. apply orb_comm.
Qed.

(** C8: [loading], [isFirstLoad], [getStatus] and [fetchDisabled] never
    call the store's [setStatus] and leave the store as it was;
    [setStatus] and [resetStatus] are the operations that do call it. *)
Theorem reads_leave_store_unchanged (defaultSection : Sec) (refresh : bool)
    (status : Status) (opts : option (Opts Sec)) (σ : St) :
  let h := useStatusUpdater defaultSection in
  (ReadOnly (h_loading h opts) /\ after (h_loading h opts) σ = σ)
  /\ (ReadOnly (h_isFirstLoad h opts) /\ after (h_isFirstLoad h opts) σ = σ)
  /\ (ReadOnly (h_getStatus h opts) /\ after (h_getStatus h opts) σ = σ)
  /\ (ReadOnly (h_fetchDisabled h refresh opts)
      /\ after (h_fetchDisabled h refresh opts) σ = σ)
  /\ ~ ReadOnly (h_setStatus h status opts)
  /\ ~ ReadOnly (h_resetStatus h opts).
Proof.
  cbn zeta.
  cbn [useStatusUpdater h_loading h_isFirstLoad h_getStatus h_fetchDisabled
       h_setStatus h_resetStatus].
  pose proof (loading_ReadOnly (Status:=Status) defaultSection opts) as Hl.
  pose proof (isFirstLoad_ReadOnly defaultSection opts) as Hf.
  pose proof (getSectionStatus_ReadOnly (Status:=Status) defaultSection opts) as Hg.
  pose proof (fetchDisabled_ReadOnly defaultSection refresh opts) as Hd.
  repeat split; auto using ReadOnly_after.
  - inversion 1.
  - inversion 1.
Qed.

(** C9: [resetStatus(opts)] is [setStatus(Status.NONE, opts)]: the same
    call with the same payload, hence the same store afterwards. *)
Theorem resetStatus_is_setStatus_NONE (defaultSection : Sec)
    (opts : option (Opts Sec)) (σ : St) :
  let h := useStatusUpdater defaultSection in
  h_resetStatus h opts = h_setStatus h NONE opts
  /\ run (h_resetStatus h opts) σ = run (h_setStatus h NONE opts) σ
  /\ after (h_resetStatus h opts) σ =
     store_setStatus
       {| p_section := (resolveOptions defaultSection opts).1;
          p_subsection := (resolveOptions defaultSection opts).2;
          p_status := NONE |} σ.
Proof.
  cbn zeta. cbn [useStatusUpdater h_resetStatus h_setStatus].
  repeat split.
  unfold after. change (resetStatus defaultSection opts)
    with (updateStatus defaultSection NONE opts).
  rewrite run_updateStatus. reflexivity.
Qed.

End Handle.

(** ** The keys handed to the store *)

Section Keys.
Context {Sec Status : Type} `{!StatusEnum Status}.

Lemma fetchDisabled_CallsOnlyAt (defaultSection : Sec) (refresh : bool)
    (opts : option (Opts Sec)) :
  CallsOnlyAt (resolveOptions defaultSection opts)
    (fetchDisabled defaultSection refresh opts).
Proof.
  unfold fetchDisabled. apply CallsOnlyAt_bind.
  - destruct opts as [[[s|] [ss|]]|]; repeat constructor.
  - intros first. destruct (negb (first || refresh)).
    + constructor.
    + destruct opts as [[[s|] [ss|]]|]; repeat constructor.
Qed.

(** C2: every one of the six operations of the handle calls the store,
    and calls it only with the section and subsection of the resolution
    rule: the explicit section if provided and the default section
    otherwise, the explicit subsection if provided and none otherwise,
    also when the options are omitted altogether. *)
Theorem options_resolved_in_every_operation (defaultSection : Sec)
    (status : Status) (refresh : bool) (opts : option (Opts Sec)) :
  let h := useStatusUpdater defaultSection in
  let k := resolveOptions defaultSection opts in
  Targets k (h_setStatus h status opts)
  /\ Targets k (h_resetStatus h opts)
  /\ Targets k (h_loading h opts)
  /\ Targets k (h_isFirstLoad h opts)
  /\ Targets k (h_fetchDisabled h refresh opts)
  /\ Targets k (h_getStatus h opts)
  /\ resolveOptions defaultSection None = (defaultSection, None).
Proof.
  cbn zeta.
  cbn [useStatusUpdater h_loading h_isFirstLoad h_getStatus h_fetchDisabled
       h_setStatus h_resetStatus].
  unfold Targets.
  pose proof (fetchDisabled_CallsOnlyAt defaultSection refresh opts) as Hd.
  repeat split; try exact Hd;
    destruct opts as [[[s|] [ss|]]|]; repeat constructor.
Qed.

End Keys.

(** ** The handle against the registry *)

Section AgainstTheRegistry.
Context {Sec Status : Type} `{!StatusEnum Status} `{Countable Sec}.
Variable derivedLoading :
  gmap (StatusKey Sec) Status -> Sec -> option string -> bool.

Local Abbreviation runR := (run (StatusStore0 := registryStore derivedLoading)).
Local Abbreviation resultR :=
  (result (StatusStore0 := registryStore derivedLoading)).
Local Abbreviation afterR := (after (StatusStore0 := registryStore derivedLoading)).

Lemma registry_after_updateStatus (defaultSection : Sec) (status : Status)
    (opts : option (Opts Sec)) (m : gmap (StatusKey Sec) Status) :
  afterR (updateStatus defaultSection status opts) m =
  <[resolveOptions defaultSection opts := status]> m.
Proof.
  unfold after. rewrite run_updateStatus. cbn.
  rewrite <- surjective_pairing. reflexivity.
Qed.

Lemma registry_result_getSectionStatus (defaultSection : Sec)
    (opts : option (Opts Sec)) (m : gmap (StatusKey Sec) Status) :
  resultR (getSectionStatus defaultSection opts) m =
  default NONE (m !! resolveOptions defaultSection opts).
Proof.
  unfold result. rewrite run_getSectionStatus. cbn.
  rewrite <- surjective_pairing. reflexivity.
Qed.

(** C4: [setStatus(s, opts)] returns nothing and leaves the store with
    [s] written at the resolved key; right after it, when [s] is not
    [Status.NONE], [isFirstLoad(opts)] is false. *)
Theorem setStatus_writes_resolved_key (defaultSection : Sec)
    (status : Status) (opts : option (Opts Sec))
    (m : gmap (StatusKey Sec) Status) :
  runR (h_setStatus (useStatusUpdater defaultSection) status opts) m
    = (tt, <[resolveOptions defaultSection opts := status]> m)
  /\ resultR (h_getStatus (useStatusUpdater defaultSection) opts)
       (afterR (h_setStatus (useStatusUpdater defaultSection) status opts) m)
     = status
  /\ (status <> NONE ->
      resultR (h_isFirstLoad (useStatusUpdater defaultSection) opts)
        (afterR (h_setStatus (useStatusUpdater defaultSection) status opts) m)
      = false).
Proof.
  cbn [useStatusUpdater h_setStatus h_getStatus h_isFirstLoad].
  rewrite registry_after_updateStatus.
  split; [|split].
  - rewrite run_updateStatus. cbn. rewrite <- surjective_pairing. reflexivity.
  - rewrite registry_result_getSectionStatus, lookup_insert_eq. reflexivity.
  - intros Hs. unfold result. rewrite run_isFirstLoad. cbn.
    rewrite <- surjective_pairing, lookup_insert_eq. cbn.
    apply bool_decide_eq_false_2, Hs.
Qed.

(** C5: [resetStatus(opts)] writes [Status.NONE] at the resolved key, so
    [resetStatus(opts)] followed at once by [getStatus(opts)] yields
    [Status.NONE]. *)
Theorem resetStatus_then_getStatus (defaultSection : Sec)
    (opts : option (Opts Sec)) (m : gmap (StatusKey Sec) Status) :
  let h := useStatusUpdater defaultSection in
  afterR (h_resetStatus h opts) m
    = <[resolveOptions defaultSection opts := NONE]> m
  /\ resultR (h_resetStatus h opts ≫= fun _ => h_getStatus h opts) m = NONE.
Proof.
  cbn zeta. cbn [useStatusUpdater h_resetStatus h_getStatus].
  change (resetStatus defaultSection opts)
    with (updateStatus defaultSection NONE opts).
  split.
  - apply registry_after_updateStatus.
  - unfold result at 1. rewrite run_bind. fold (resultR (getSectionStatus defaultSection opts)
      (afterR (updateStatus defaultSection NONE opts) m)).
    rewrite registry_after_updateStatus, registry_result_getSectionStatus.
    rewrite lookup_insert_eq. reflexivity.
Qed.

(** C10: [setStatus(s, opts)] and [resetStatus(opts)] change at most the
    entry of the resolved key: at every other key the store holds the
    same status before and after the call. *)
Theorem writes_touch_only_resolved_key (defaultSection : Sec)
    (status : Status) (opts : option (Opts Sec))
    (m : gmap (StatusKey Sec) Status) (k' : StatusKey Sec) :
  k' <> resolveOptions defaultSection opts ->
  (afterR (h_setStatus (useStatusUpdater defaultSection) status opts) m !! k'
     = m !! k'
   /\ store_getStatus (StatusStore := registryStore derivedLoading) k'.1 k'.2
        (afterR (h_setStatus (useStatusUpdater defaultSection) status opts) m)
      = store_getStatus (StatusStore := registryStore derivedLoading)
          k'.1 k'.2 m)
  /\ (afterR (h_resetStatus (useStatusUpdater defaultSection) opts) m !! k'
        = m !! k'
      /\ store_getStatus (StatusStore := registryStore derivedLoading) k'.1 k'.2
           (afterR (h_resetStatus (useStatusUpdater defaultSection) opts) m)
         = store_getStatus (StatusStore := registryStore derivedLoading)
             k'.1 k'.2 m).
Proof.
  intros Hk. cbn [useStatusUpdater h_setStatus h_resetStatus].
  change (resetStatus defaultSection opts)
    with (updateStatus defaultSection NONE opts).
  rewrite !registry_after_updateStatus. cbn [store_getStatus registryStore].
  rewrite <- (surjective_pairing k').
  rewrite !lookup_insert_ne by (intros E; apply Hk; symmetry; exact E).
  auto.
Qed.

End AgainstTheRegistry.

(** ** Further properties of the operations *)

Section CanonicalForms.
Context {Sec Status : Type} `{!StatusEnum Status}.
Variable defaultSection : Sec.

(** Each operation written as a function of the resolved key alone. *)
Lemma updateStatus_by_key (status : Status) (opts : option (Opts Sec)) :
  updateStatus defaultSection status opts =
  SetStatusCall
    {| p_section := (resolveOptions defaultSection opts).1;
       p_subsection := (resolveOptions defaultSection opts).2;
       p_status := status |} (Ret tt).
Proof. destruct opts as [[[s|] [ss|]]|]; reflexivity. Qed.

Lemma loading_by_key (opts : option (Opts Sec)) :
  @loading Sec Status defaultSection opts =
  IsLoadingCall (resolveOptions defaultSection opts).1
                (resolveOptions defaultSection opts).2 Ret.
Proof. destruct opts as [[[s|] [ss|]]|]; reflexivity. Qed.

Lemma getSectionStatus_by_key (opts : option (Opts Sec)) :
  @getSectionStatus Sec Status defaultSection opts =
  GetStatusCall (resolveOptions defaultSection opts).1
                (resolveOptions defaultSection opts).2 Ret.
Proof. destruct opts as [[[s|] [ss|]]|]; reflexivity. Qed.

Lemma isFirstLoad_by_key (opts : option (Opts Sec)) :
  isFirstLoad defaultSection opts =
  GetStatusCall (resolveOptions defaultSection opts).1
                (resolveOptions defaultSection opts).2
                (fun st => Ret (bool_decide (st = NONE))).
Proof. destruct opts as [[[s|] [ss|]]|]; reflexivity. Qed.

Lemma fetchDisabled_by_key (refresh : bool) (opts : option (Opts Sec)) :
  fetchDisabled defaultSection refresh opts =
  GetStatusCall (resolveOptions defaultSection opts).1
                (resolveOptions defaultSection opts).2
    (fun st =>
       if negb (bool_decide (st = NONE) || refresh) then Ret true
       else IsLoadingCall (resolveOptions defaultSection opts).1
                          (resolveOptions defaultSection opts).2 Ret).
Proof. destruct opts as [[[s|] [ss|]]|]; reflexivity. Qed.

End CanonicalForms.

Section MoreOnTheHandle.
Context {Sec Status : Type} `{!StatusEnum Status}.

(** X1: an operation depends on the default section and on the options
    only through the key they resolve to: two calls, even on handles made
    for different default sections, whose options resolve to the same
    section and subsection perform the same calls and compute the same
    value from the store's answers. *)
Theorem operations_depend_on_resolved_key (d1 d2 : Sec)
    (o1 o2 : option (Opts Sec)) (status : Status) (refresh : bool) :
  resolveOptions d1 o1 = resolveOptions d2 o2 ->
  h_setStatus (useStatusUpdater d1) status o1
    = h_setStatus (useStatusUpdater d2) status o2
  /\ h_resetStatus (useStatusUpdater d1) o1
     = h_resetStatus (useStatusUpdater d2) o2
  /\ h_loading (Status:=Status) (useStatusUpdater d1) o1
     = h_loading (useStatusUpdater d2) o2
  /\ h_isFirstLoad (useStatusUpdater d1) o1
     = h_isFirstLoad (useStatusUpdater d2) o2
  /\ h_fetchDisabled (useStatusUpdater d1) refresh o1
     = h_fetchDisabled (useStatusUpdater d2) refresh o2
  /\ h_getStatus (Status:=Status) (useStatusUpdater d1) o1
     = h_getStatus (useStatusUpdater d2) o2.
Proof.
  intros E.
  cbn [useStatusUpdater h_loading h_isFirstLoad h_getStatus h_fetchDisabled
       h_setStatus h_resetStatus].
  change (resetStatus d1 o1) with (updateStatus d1 NONE o1).
  change (resetStatus d2 o2) with (updateStatus d2 NONE o2).
  rewrite !updateStatus_by_key, !loading_by_key, !isFirstLoad_by_key,
    !fetchDisabled_by_key, !getSectionStatus_by_key, E.
  repeat split.
Qed.

Context {St : Type} `{!StatusStore Sec Status St}.

(** X2: [fetchDisabled] always reads the status of the resolved key
    first; it asks the store whether that key is loading only when that
    status is [Status.NONE] or a refresh is requested.  Otherwise it
    answers true after the single read. *)
Theorem fetchDisabled_calls (defaultSection : Sec) (refresh : bool)
    (opts : option (Opts Sec)) (σ : St) :
  let h := useStatusUpdater defaultSection in
  let k := resolveOptions defaultSection opts in
  calls (h_fetchDisabled h refresh opts) σ =
    CalledGetStatus k.1 k.2 ::
      (if result (h_isFirstLoad h opts) σ || refresh
       then [CalledIsLoading k.1 k.2] else [])
  /\ (result (h_isFirstLoad h opts) σ || refresh = false ->
      result (h_fetchDisabled h refresh opts) σ = true).
Proof.
  cbn zeta. cbn [useStatusUpdater h_fetchDisabled h_isFirstLoad].
  rewrite fetchDisabled_by_key, isFirstLoad_by_key.
  unfold result. cbn [run calls fst].
  destruct (bool_decide _ || refresh); cbn; split; auto; discriminate.
Qed.

(** X3: every operation other than [fetchDisabled] performs exactly one
    call on the store.  [setStatus] and [resetStatus] write at once,
    without reading the current status first; [loading], [isFirstLoad]
    and [getStatus] perform a single read. *)
Theorem single_call_operations (defaultSection : Sec) (status : Status)
    (opts : option (Opts Sec)) (σ : St) :
  let h := useStatusUpdater defaultSection in
  let k := resolveOptions defaultSection opts in
  calls (h_setStatus h status opts) σ
    = [CalledSetStatus
         {| p_section := k.1; p_subsection := k.2; p_status := status |}]
  /\ calls (h_resetStatus h opts) σ
     = [CalledSetStatus
          {| p_section := k.1; p_subsection := k.2; p_status := NONE |}]
  /\ calls (h_loading h opts) σ = [CalledIsLoading k.1 k.2]
  /\ calls (h_isFirstLoad h opts) σ = [CalledGetStatus k.1 k.2]
  /\ calls (h_getStatus h opts) σ = [CalledGetStatus k.1 k.2].
Proof.
  cbn zeta.
  cbn [useStatusUpdater h_loading h_isFirstLoad h_getStatus
       h_setStatus h_resetStatus].
  change (resetStatus defaultSection opts)
    with (updateStatus defaultSection NONE opts).
  rewrite !updateStatus_by_key, loading_by_key, isFirstLoad_by_key,
    getSectionStatus_by_key.
  repeat split.
Qed.

(** X5: requesting a refresh never disables a fetch: when
    [fetchDisabled(true, opts)] is true, so is [fetchDisabled(refresh,
    opts)] for every [refresh]. *)
Theorem refresh_never_disables (defaultSection : Sec) (refresh : bool)
    (opts : option (Opts Sec)) (σ : St) :
  result (h_fetchDisabled (useStatusUpdater defaultSection) true opts) σ
    = true ->
  result (h_fetchDisabled (useStatusUpdater defaultSection) refresh opts) σ
    = true.
Proof.
  cbn [useStatusUpdater h_fetchDisabled].
  rewrite !result_fetchDisabled, orb_true_r. cbn [negb orb].
  intros ->. apply orb_true_r.
Qed.

(** X6: on a first load the refresh flag is irrelevant: when
    [isFirstLoad(opts)] is true, [fetchDisabled(refresh, opts)] is
    [loading(opts)] for either value of [refresh]. *)
Theorem first_load_ignores_refresh (defaultSection : Sec) (refresh : bool)
    (opts : option (Opts Sec)) (σ : St) :
  result (h_isFirstLoad (useStatusUpdater defaultSection) opts) σ = true ->
  result (h_fetchDisabled (useStatusUpdater defaultSection) refresh opts) σ
    = result (h_loading (useStatusUpdater defaultSection) opts) σ.
Proof.
  cbn [useStatusUpdater h_fetchDisabled h_isFirstLoad h_loading].
  intros E. rewrite result_fetchDisabled, E. reflexivity.
Qed.

(** X7: in a store that reads back what was written, [resetStatus(opts)]
    always makes the key a first load again, so that
    [fetchDisabled(false, opts)] is then [loading(opts)]; and after
    [setStatus(s, opts)], when [s] is other than [Status.NONE],
    [fetchDisabled(false, opts)] is true: only a refresh can fetch
    again. *)
Theorem fetchDisabled_after_writes (defaultSection : Sec) (status : Status)
    (opts : option (Opts Sec)) (σ : St) :
  ReadsBackWrites St ->
  (result (h_isFirstLoad (useStatusUpdater defaultSection) opts)
     (after (h_resetStatus (useStatusUpdater defaultSection) opts) σ) = true
   /\ result (h_fetchDisabled (useStatusUpdater defaultSection) false opts)
        (after (h_resetStatus (useStatusUpdater defaultSection) opts) σ)
      = result (h_loading (useStatusUpdater defaultSection) opts)
          (after (h_resetStatus (useStatusUpdater defaultSection) opts) σ))
  /\ (status <> NONE ->
      result (h_fetchDisabled (useStatusUpdater defaultSection) false opts)
        (after (h_setStatus (useStatusUpdater defaultSection) status opts) σ)
      = true).
Proof.
  intros Hrw.
  cbn [useStatusUpdater h_loading h_isFirstLoad h_fetchDisabled
       h_setStatus h_resetStatus].
  change (resetStatus defaultSection opts)
    with (updateStatus defaultSection NONE opts).
  rewrite !result_fetchDisabled.
  assert (F : forall s,
    result (isFirstLoad defaultSection opts)
      (after (updateStatus defaultSection s opts) σ) = bool_decide (s = NONE)).
  { intros s. unfold result, after.
    rewrite run_updateStatus, run_isFirstLoad. cbn [fst snd].
    pose proof (Hrw (mkPayload (resolveOptions defaultSection opts).1
                       (resolveOptions defaultSection opts).2 s) σ) as E.
    cbn [p_section p_subsection p_status] in E. rewrite E. reflexivity. }
  rewrite !F.
  rewrite (bool_decide_eq_true_2 (NONE = NONE) eq_refl).
  repeat split.
  intros Hs. rewrite (bool_decide_eq_false_2 (status = NONE) Hs).
  reflexivity.
Qed.

End MoreOnTheHandle.

Section ReadsAndKeys.
Context {Sec Status : Type} `{!StatusEnum Status}.
Context {St1 St2 : Type}.
Context `{!StatusStore Sec Status St1} `{!StatusStore Sec Status St2}.

(** A tree that only reads, and only at key [k], computes the same value
    in two stores that answer alike at [k]. *)
Lemma read_result_by_key (k : StatusKey Sec) {A : Type}
    (p : Prog Sec Status A) (σ1 : St1) (σ2 : St2) :
  ReadOnly p -> CallsOnlyAt k p -> AgreeAt k σ1 σ2 ->
  result p σ1 = result p σ2.
Proof.
  intros Hro Hc [Hg Hl]. unfold result.
  induction Hro as [a | s ss c _ IH | s ss c _ IH]; simpl.
  - reflexivity.
  - inversion Hc as [ | | s' ss' c' Hk Hc' | ]; subst; simpl in *.
    rewrite Hg. apply IH, Hc'.
  - inversion Hc as [ | | | s' ss' c' Hk Hc' ]; subst; simpl in *.
    rewrite Hl. apply IH, Hc'.
Qed.

(** X4: what [loading], [isFirstLoad], [getStatus] and [fetchDisabled]
    return depends on the store only through its two answers at the
    resolved key: in two stores, of any two implementations, that agree
    there the four operations return the same values. *)
Theorem reads_depend_on_resolved_key_only (defaultSection : Sec)
    (refresh : bool) (opts : option (Opts Sec)) (σ1 : St1) (σ2 : St2) :
  AgreeAt (resolveOptions defaultSection opts) σ1 σ2 ->
  result (h_loading (useStatusUpdater defaultSection) opts) σ1
    = result (h_loading (useStatusUpdater defaultSection) opts) σ2
  /\ result (h_isFirstLoad (useStatusUpdater defaultSection) opts) σ1
     = result (h_isFirstLoad (useStatusUpdater defaultSection) opts) σ2
  /\ result (h_getStatus (useStatusUpdater defaultSection) opts) σ1
     = result (h_getStatus (useStatusUpdater defaultSection) opts) σ2
  /\ result (h_fetchDisabled (useStatusUpdater defaultSection) refresh opts) σ1
     = result (h_fetchDisabled (useStatusUpdater defaultSection) refresh opts) σ2.
Proof.
  intros Hag.
  cbn [useStatusUpdater h_loading h_isFirstLoad h_getStatus h_fetchDisabled].
  repeat split;
    apply (read_result_by_key (resolveOptions defaultSection opts));
    try exact Hag.
  - apply loading_ReadOnly.
  - destruct opts as [[[s|] [ss|]]|]; repeat constructor.
  - apply isFirstLoad_ReadOnly.
  - destruct opts as [[[s|] [ss|]]|]; repeat constructor.
  - apply getSectionStatus_ReadOnly.
  - destruct opts as [[[s|] [ss|]]|]; repeat constructor.
  - apply fetchDisabled_ReadOnly.
  - apply fetchDisabled_CallsOnlyAt.
Qed.

End ReadsAndKeys.

(** ** The example scenario *)

Module ScenarioFacts.
Import Scenario.

#[local] Existing Instance scenarioStore.

(** Default section ["balances"], no subsection, nothing written yet:
    [isFirstLoad()] is true. *)
Example scenario_first_load :
  result (h_isFirstLoad balances None) ∅ = true.
Proof. reflexivity. Qed.

(** After [setStatus(Status.SUCCESS)], [isFirstLoad()] is false,
    [fetchDisabled(false)] is true and [fetchDisabled(true)] is false. *)
Example scenario_after_success :
  let m := after (h_setStatus balances St_SUCCESS None) ∅ in
  result (h_isFirstLoad balances None) m = false
  /\ result (h_fetchDisabled balances false None) m = true
  /\ result (h_fetchDisabled balances true None) m = false.
Proof. vm_compute. auto. Qed.

(** While the key is loading a refresh is refused as well. *)
Example scenario_while_loading :
  let m := after (h_setStatus balances St_LOADING None) ∅ in
  result (h_fetchDisabled balances true None) m = true
  /\ result (h_fetchDisabled balances false None) m = true.
Proof. vm_compute. auto. Qed.

(** An explicit section and subsection override the default section. *)
Example scenario_explicit_key :
  after (h_setStatus balances St_SUCCESS (Some historyOpts)) ∅
  = {[ ("history"%string, Some "trades"%string) := St_SUCCESS ]}.
Proof. reflexivity. Qed.

Lemma setStatus_writes_resolved_key_witness :
  St_SUCCESS <> NONE
  /\ result (h_isFirstLoad balances None)
       (after (h_setStatus balances St_SUCCESS None) ∅) = false.
Proof.
  split.
  - discriminate.
  - apply (setStatus_writes_resolved_key scenarioLoading
             "balances"%string St_SUCCESS None ∅).
    discriminate.
Defined.

Lemma writes_touch_only_resolved_key_witness :
  ("balances"%string, None) <> resolveOptions "balances"%string (Some historyOpts)
  /\ after (h_setStatus balances St_SUCCESS (Some historyOpts))
       {[ ("balances"%string, None) := St_LOADING ]}
     !! ("balances"%string, None) = Some St_LOADING.
Proof.
  split.
  - discriminate.
  - refine (proj1 (proj1 (writes_touch_only_resolved_key scenarioLoading
             "balances"%string St_SUCCESS (Some historyOpts)
             {[ ("balances"%string, None) := St_LOADING ]}
             ("balances"%string, None) _))).
    discriminate.
Defined.

End ScenarioFacts.

(** ** Instances of the further properties in the scenario *)

Module MoreScenarioFacts.
Import Scenario.

#[local] Existing Instance scenarioStore.

Lemma operations_depend_on_resolved_key_witness :
  resolveOptions "balances"%string (Some historyOpts)
    = resolveOptions "history"%string
        (Some {| section := None; subsection := Some "trades"%string |})
  /\ h_fetchDisabled balances true (Some historyOpts)
     = h_fetchDisabled (useStatusUpdater "history"%string) true
         (Some {| section := None; subsection := Some "trades"%string |}).
Proof.
  split.
  - reflexivity.
  - refine (proj1 (proj2 (proj2 (proj2 (proj2
      (operations_depend_on_resolved_key "balances"%string "history"%string
         (Some historyOpts)
         (Some {| section := None; subsection := Some "trades"%string |})
         St_SUCCESS true _)))))).
    reflexivity.
Defined.

Lemma fetchDisabled_calls_witness :
  result (h_isFirstLoad balances None)
    {[ ("balances"%string, None) := St_SUCCESS ]} || false = false
  /\ result (h_fetchDisabled balances false None)
       {[ ("balances"%string, None) := St_SUCCESS ]} = true.
Proof.
  split.
  - reflexivity.
  - refine (proj2 (fetchDisabled_calls "balances"%string false None
                     {[ ("balances"%string, None) := St_SUCCESS ]}) _).
    reflexivity.
Defined.

Lemma reads_depend_on_resolved_key_only_witness :
  AgreeAt (resolveOptions "balances"%string None)
    ({[ ("balances"%string, None) := St_LOADING ]}
       : gmap (StatusKey string) ScenarioStatus)
    ({[ ("balances"%string, None) := St_LOADING;
        ("history"%string, Some "trades"%string) := St_SUCCESS ]}
       : gmap (StatusKey string) ScenarioStatus)
  /\ result (h_fetchDisabled balances true None)
       {[ ("balances"%string, None) := St_LOADING ]}
     = result (h_fetchDisabled balances true None)
         {[ ("balances"%string, None) := St_LOADING;
            ("history"%string, Some "trades"%string) := St_SUCCESS ]}.
Proof.
  assert (Hag : AgreeAt (resolveOptions "balances"%string None)
    ({[ ("balances"%string, None) := St_LOADING ]}
       : gmap (StatusKey string) ScenarioStatus)
    ({[ ("balances"%string, None) := St_LOADING;
        ("history"%string, Some "trades"%string) := St_SUCCESS ]}
       : gmap (StatusKey string) ScenarioStatus)).
  { split; vm_compute; reflexivity. }
  split.
  - exact Hag.
  - exact (proj2 (proj2 (proj2
      (reads_depend_on_resolved_key_only "balances"%string true None
         _ _ Hag)))).
Defined.

Lemma refresh_never_disables_witness :
  result (h_fetchDisabled balances true None)
    {[ ("balances"%string, None) := St_LOADING ]} = true
  /\ result (h_fetchDisabled balances false None)
       {[ ("balances"%string, None) := St_LOADING ]} = true.
Proof.
  split.
  - reflexivity.
  - apply (refresh_never_disables "balances"%string false None
             {[ ("balances"%string, None) := St_LOADING ]}).
    reflexivity.
Defined.

Lemma first_load_ignores_refresh_witness :
  result (h_isFirstLoad balances (Some historyOpts))
    {[ ("balances"%string, None) := St_SUCCESS ]} = true
  /\ result (h_fetchDisabled balances false (Some historyOpts))
       {[ ("balances"%string, None) := St_SUCCESS ]}
     = result (h_loading balances (Some historyOpts))
         {[ ("balances"%string, None) := St_SUCCESS ]}.
Proof.
  split.
  - reflexivity.
  - apply (first_load_ignores_refresh "balances"%string false
             (Some historyOpts)
             {[ ("balances"%string, None) := St_SUCCESS ]}).
    reflexivity.
Defined.

Lemma fetchDisabled_after_writes_witness :
  ReadsBackWrites (gmap (StatusKey string) ScenarioStatus)
  /\ St_SUCCESS <> NONE
  /\ result (h_isFirstLoad balances None)
       (after (h_resetStatus balances None)
          {[ ("balances"%string, None) := St_SUCCESS ]}) = true
  /\ result (h_fetchDisabled balances false None)
       (after (h_setStatus balances St_SUCCESS None) ∅) = true.
Proof.
  assert (Hrw : ReadsBackWrites (gmap (StatusKey string) ScenarioStatus)).
  { intros p m. cbn. rewrite lookup_insert_eq. reflexivity. }
  assert (Hs : St_SUCCESS <> NONE) by discriminate.
  split; [exact Hrw | split; [exact Hs | split]].
  - exact (proj1 (proj1
      (fetchDisabled_after_writes "balances"%string St_SUCCESS None
         {[ ("balances"%string, None) := St_SUCCESS ]} Hrw))).
  - exact (proj2
      (fetchDisabled_after_writes "balances"%string St_SUCCESS None ∅ Hrw)
      Hs).
Defined.

End MoreScenarioFacts.
